(** * demo_plots: the transit light-curve model

    A shallow embedding of the three model functions of [demo_plots.py]
    ([symmetric_transit], [asymmetric_transit], [ringed_transit]) and of the
    module-level time grid they read, with the properties the specification
    states about them.

    Numbers.  The script computes with [np.float64].  A finite float is
    modelled by the real number it denotes (rounding and overflow are not
    modelled: arithmetic on finite values is exact), and the three special
    values of the format, which NumPy produces silently on a division by
    zero, are kept as constructors of their own.  Signed zeros are not
    distinguished: the only place where the sign of a zero divisor shows is
    the sign of an infinity that the script squares at once.

    Doubles.  Where rounding, overflow or underflow decides what the code
    returns, the same expressions are evaluated on the machine doubles, in
    module [Binary64]; properties stated on the exact reading are those that
    survive rounding. *)

From Stdlib Require Import Floats.
From Stdlib Require Uint63 ZArith.
From Stdlib Require Import Reals Lra Lia.
From stdpp Require Import base list.

Open Scope R_scope.

(** ** Values of type [np.float64] *)

Module F64.

Inductive float64 : Type :=
| Fin (r : R)
| PInf
| NInf
| NaN.

(** Sign of a finite value, as the special-value rules need it. *)
Inductive sign : Type := Neg | Zero | Pos.

Definition sign_of (r : R) : sign :=
  if Rlt_dec 0 r then Pos else if Rlt_dec r 0 then Neg else Zero.

(** [-x] *)
Definition fneg (x : float64) : float64 :=
  match x with
  | Fin a => Fin (- a)
  | PInf => NInf
  | NInf => PInf
  | NaN => NaN
  end.

(** [abs(x)] *)
Definition fabs (x : float64) : float64 :=
  match x with
  | Fin a => Fin (Rabs a)
  | PInf | NInf => PInf
  | NaN => NaN
  end.

(** An infinity times (or divided by) a finite value of the given sign. *)
Definition inf_signed (x : float64) (s : sign) : float64 :=
  match s with
  | Pos => x
  | Neg => fneg x
  | Zero => NaN
  end.

(** [x + y] *)
Definition fadd (x y : float64) : float64 :=
  match x, y with
  | NaN, _ | _, NaN => NaN
  | Fin a, Fin b => Fin (a + b)
  | PInf, NInf | NInf, PInf => NaN
  | PInf, _ | _, PInf => PInf
  | NInf, _ | _, NInf => NInf
  end.

(** [x - y] *)
Definition fsub (x y : float64) : float64 := fadd x (fneg y).

(** [x * y] *)
Definition fmul (x y : float64) : float64 :=
  match x, y with
  | NaN, _ | _, NaN => NaN
  | Fin a, Fin b => Fin (a * b)
  | Fin a, (PInf | NInf) => inf_signed y (sign_of a)
  | (PInf | NInf), Fin b => inf_signed x (sign_of b)
  | PInf, PInf | NInf, NInf => PInf
  | PInf, NInf | NInf, PInf => NInf
  end.

(** [x / y] on NumPy scalars and arrays: a zero divisor raises nothing, the
    quotient is an infinity, or NaN for [0 / 0]. *)
Definition fdiv (x y : float64) : float64 :=
  match x, y with
  | NaN, _ | _, NaN => NaN
  | Fin a, Fin b =>
      if Req_dec_T b 0 then
        match sign_of a with
        | Pos => PInf
        | Neg => NInf
        | Zero => NaN
        end
      else Fin (a / b)
  | Fin _, (PInf | NInf) => Fin 0
  | (PInf | NInf), Fin b =>
      if Req_dec_T b 0 then x else inf_signed x (sign_of b)
  | (PInf | NInf), (PInf | NInf) => NaN
  end.

(** [x ** n] for a literal natural exponent. *)
Definition fpow (x : float64) (n : nat) : float64 :=
  match n with
  | O => Fin 1
  | S _ =>
      match x with
      | Fin a => Fin (a ^ n)
      | PInf => PInf
      | NInf => if Nat.even n then PInf else NInf
      | NaN => NaN
      end
  end.

(** [np.exp(x)] *)
Definition fexp (x : float64) : float64 :=
  match x with
  | Fin a => Fin (exp a)
  | PInf => PInf
  | NInf => Fin 0
  | NaN => NaN
  end.

(** [np.sin(x)] *)
Definition fsin (x : float64) : float64 :=
  match x with
  | Fin a => Fin (sin a)
  | PInf | NInf | NaN => NaN
  end.

(** [x < y]: every comparison with NaN is false. *)
Definition flt (x y : float64) : bool :=
  match x, y with
  | NaN, _ | _, NaN => false
  | Fin a, Fin b => if Rlt_dec a b then true else false
  | NInf, NInf | PInf, _ | _, NInf => false
  | NInf, _ | _, PInf => true
  end.

End F64.

Import F64.

(** ** NumPy arrays of floats *)

Module Np.

(** A one-dimensional array: the list of its elements. *)
Abbreviation ndarray := (list float64).

(** A scalar on the left of a binary operator is broadcast over the array. *)
Definition bcast_l (op : float64 -> float64 -> float64)
    (c : float64) (a : ndarray) : ndarray :=
  op c <$> a.

(** A scalar on the right of a binary operator is broadcast over the array. *)
Definition bcast_r {B : Type} (op : float64 -> B -> float64)
    (a : ndarray) (c : B) : ndarray :=
  (fun x => op x c) <$> a.

(** [np.exp] applied to an array. *)
Definition exp_arr (a : ndarray) : ndarray := fexp <$> a.

(** [np.ones_like(a)] *)
Definition ones_like (a : ndarray) : ndarray := replicate (length a) (Fin 1).

(** [enumerate(a)] *)
Definition enumerate (a : ndarray) : list (nat * float64) :=
  zip (seq 0 (length a)) a.

(** [np.linspace(start, stop, num)]: [num] samples [start + i * step] with
    [step = (stop - start) / (num - 1)], the end point included. *)
Definition linspace (start stop : R) (num : nat) : ndarray :=
  (fun i : nat => Fin (start + INR i * ((stop - start) / INR (num - 1))))
    <$> seq 0 num.

End Np.

Import Np.

(** ** The model functions *)

Section Model.

(** The module-level array [time], read by the three functions. *)
Variable time : ndarray.

(** [1.0 - depth * np.exp(-0.5 * (time / sigma) ** 2)], on the whole array. *)
Definition symmetric_transit (depth sigma : R) : ndarray :=
  bcast_l fsub (Fin 1)
    (bcast_l fmul (Fin depth)
       (exp_arr
          (bcast_l fmul (Fin (- 0.5))
             (bcast_r fpow (bcast_r fdiv time (Fin sigma)) 2%nat)))).

(** The right-hand side of [flux[i] = ...] in the branch [t < 0]. *)
Definition ingress_flux (depth sigma : R) (t : float64) : float64 :=
  fsub (Fin 1)
    (fmul (Fin depth)
       (fexp (fmul (Fin (- 0.5)) (fpow (fdiv t (Fin sigma)) 2)))).

(** The right-hand side of [flux[i] = ...] in the [else] branch. *)
Definition egress_flux (depth sigma asymmetry_factor : R) (t : float64)
    : float64 :=
  fsub (Fin 1)
    (fmul (Fin depth)
       (fexp
          (fmul (Fin (- 0.5))
             (fpow (fdiv t (fmul (Fin sigma) (Fin asymmetry_factor))) 2)))).

(** One iteration of the loop of [asymmetric_transit].  The index comes from
    [enumerate(time)] and [flux] has the length of [time]: the assignment
    [flux[i] = ...] is always in range. *)
Definition asymmetric_step (depth sigma asymmetry_factor : R)
    (flux : ndarray) (it : nat * float64) : ndarray :=
  let '(i, t) := it in
  if flt t (Fin 0)
  then <[i := ingress_flux depth sigma t]> flux
  else <[i := egress_flux depth sigma asymmetry_factor t]> flux.

Definition asymmetric_transit (depth sigma asymmetry_factor : R) : ndarray :=
  foldl (asymmetric_step depth sigma asymmetry_factor)
    (ones_like time) (enumerate time).

(** [ring_amp * np.sin(ring_freq * t) * np.exp(-abs(t) / 0.3)] *)
Definition ring_mod (ring_amp ring_freq : R) (t : float64) : float64 :=
  fmul (fmul (Fin ring_amp) (fsin (fmul (Fin ring_freq) t)))
       (fexp (fdiv (fneg (fabs t)) (Fin 0.3))).

(** One iteration of the loop of [ringed_transit]: each branch computes its
    own [base] and its own [ring_mod]. *)
Definition ringed_step (depth sigma asymmetry_factor ring_amp ring_freq : R)
    (flux : ndarray) (it : nat * float64) : ndarray :=
  let '(i, t) := it in
  if flt t (Fin 0)
  then
    let base := ingress_flux depth sigma t in
    let ring := ring_mod ring_amp ring_freq t in
    <[i := fadd base ring]> flux
  else
    let base := egress_flux depth sigma asymmetry_factor t in
    let ring := ring_mod ring_amp ring_freq t in
    <[i := fadd base ring]> flux.

Definition ringed_transit
    (depth sigma asymmetry_factor ring_amp ring_freq : R) : ndarray :=
  foldl (ringed_step depth sigma asymmetry_factor ring_amp ring_freq)
    (ones_like time) (enumerate time).

End Model.

(** ** The script *)

(** [time = np.linspace(-1.5, 1.5, 400)] *)
Definition time : ndarray := linspace (- 1.5) 1.5 400.

(** Default arguments of the [def]s. *)
Definition default_asymmetry_factor : R := 2.0.
Definition default_ring_amp : R := 0.01.
Definition default_ring_freq : R := 25.

Definition flux_3 : ndarray := symmetric_transit time 0.03 0.1.
Definition flux_20 : ndarray := ringed_transit time 0.20 0.3 0.4 0.03 20.

(** The damping envelope of the ring term: [ring_mod] without its sine
    factor, [ring_amp * np.exp(-abs(t) / 0.3)]. *)
Definition ring_envelope (ring_amp : R) (t : float64) : float64 :=
  fmul (Fin ring_amp) (fexp (fdiv (fneg (fabs t)) (Fin 0.3))).

(** ** Calls and their outcome *)

(** The one error kind the specification names. *)
Inductive py_error : Type := InvalidParameter.

(** A call of a Python function returns a value or raises. *)
Inductive outcome (A : Type) : Type :=
| Returns (v : A)
| Raises (e : py_error).

Arguments Returns {A} v.
Arguments Raises {A} e.

(** The bodies of the three [def]s contain no [raise] and no test of their
    arguments, and no operation of theirs raises on floats: a call returns
    the array computed. *)
Definition call_symmetric_transit (depth sigma : R) : outcome ndarray :=
  Returns (symmetric_transit time depth sigma).

Definition call_asymmetric_transit (depth sigma asymmetry_factor : R)
    : outcome ndarray :=
  Returns (asymmetric_transit time depth sigma asymmetry_factor).

Definition call_ringed_transit
    (depth sigma asymmetry_factor ring_amp ring_freq : R) : outcome ndarray :=
  Returns (ringed_transit time depth sigma asymmetry_factor ring_amp ring_freq).

(** ** Real-valued reading of the formulas *)

(** The Gaussian dip [1 - depth * exp(-0.5 * (t / w)^2)] of width [w]. *)
Definition gauss_dip (depth w t : R) : R :=
  1 - depth * exp (- 0.5 * (t / w) ^ 2).

(** The width the asymmetric policy selects at [t]. *)
Definition width_at (sigma asymmetry_factor t : R) : R :=
  if Rlt_dec t 0 then sigma else sigma * asymmetry_factor.

(** The ring modulation [ring_amp * sin(ring_freq * t) * exp(-|t| / 0.3)]. *)
Definition ring_term (ring_amp ring_freq t : R) : R :=
  ring_amp * sin (ring_freq * t) * exp (- Rabs t / 0.3).

(** The body of both loops, as a function of the sample. *)
Definition asymmetric_point (depth sigma asymmetry_factor : R) (t : float64)
    : float64 :=
  if flt t (Fin 0) then ingress_flux depth sigma t
  else egress_flux depth sigma asymmetry_factor t.

Definition ringed_point (depth sigma asymmetry_factor ring_amp ring_freq : R)
    (t : float64) : float64 :=
  fadd (asymmetric_point depth sigma asymmetry_factor t)
       (ring_mod ring_amp ring_freq t).

(** ** The animation *)

(** What a line artist holds after [set_data(x, y)]. *)
Record line : Type := Line { xdata : ndarray; ydata : ndarray }.

(** The two artists of the figure, [line1] (blue, the giant planet) and
    [line2] (red, the ringed planet). *)
Record artists : Type := Artists { line1 : line; line2 : line }.

(** [l.set_data(x, y)] replaces both coordinate arrays of the artist. *)
Definition set_data (l : line) (x y : ndarray) : line := Line x y.

(** [a[:n]] for a frame number [n], which is never negative. *)
Definition slice_to (a : ndarray) (n : nat) : ndarray := take n a.

(** [init()] *)
Definition init (st : artists) : artists :=
  Artists (set_data (line1 st) [] []) (set_data (line2 st) [] []).

(** [update(frame)] *)
Definition update (frame : nat) (st : artists) : artists :=
  Artists
    (set_data (line1 st) (slice_to time frame) (slice_to flux_3 frame))
    (set_data (line2 st) (slice_to time frame) (slice_to flux_20 frame)).

(** [frames=len(time)]: the animation draws the frames [range(len(time))]. *)
Definition frames : list nat := seq 0 (length time).

(** [ax.set_ylim(0.75, 1.05)] *)
Definition ylim_low : R := 0.75.
Definition ylim_high : R := 1.05.

(** ** Range of the finite doubles *)

(** The smallest positive double, [2^-1074]: a real product of at least this
    size does not underflow to 0.0. *)
Definition float_min : R := / 2 ^ 1074.

(** The largest finite double, [(2 - 2^-52) * 2^1023]: a real product of at
    most this size does not overflow to an infinity. *)
Definition float_max : R := (2 - / 2 ^ 52) * 2 ^ 1023.

(** ** The same code on binary64 *)

(** The exact reading above cannot exhibit what rounding, overflow and
    underflow do.  Here the arithmetic of the script is the IEEE 754
    arithmetic of the machine doubles; it serves to evaluate the code at
    inputs where the two readings part. *)
Module Binary64.

#[local] Set Warnings "-inexact-float".

(** What NumPy takes from the C library, at finite arguments: these values
    are left unspecified. *)
Record libm : Type := Libm {
  c_exp : float -> float;
  c_pow2 : float -> float
}.

(** [np.exp(x)]: NaN at NaN, [+0] at [-inf], [+inf] at [+inf]. *)
Definition np_exp (m : libm) (x : float) : float :=
  if is_nan x then nan
  else if is_infinity x then (if (x <? 0)%float then 0%float else infinity)
  else c_exp m x.

(** [x ** 2] on a NumPy scalar: NaN at NaN, [+inf] at both infinities. *)
Definition scalar_pow2 (m : libm) (x : float) : float :=
  if is_nan x then nan
  else if is_infinity x then infinity
  else c_pow2 m x.

(** [a ** 2] on an array is [np.square]: each element times itself. *)
Definition square (x : float) : float := (x * x)%float.

(** The float of a small natural number, as [np.arange] yields it. *)
Definition of_nat (n : nat) : float :=
  of_uint63 (Uint63.of_Z (Z.of_nat n)).

(** [np.linspace(start, stop, num)] as NumPy computes it:
    [arange(0, num) * step + start] with [step = (stop - start) / (num - 1)],
    then the last element set to [stop]. *)
Definition linspace64 (start stop : float) (num : nat) : list float :=
  let step := ((stop - start) / of_nat (num - 1))%float in
  let y := (fun i : nat => (of_nat i * step + start)%float) <$> seq 0 num in
  if (1 <? num)%nat then <[(num - 1)%nat := stop]> y else y.

(** [time = np.linspace(-1.5, 1.5, 400)] *)
Definition time64 : list float := linspace64 (-1.5)%float 1.5%float 400.

(** [1.0 - depth * np.exp(-0.5 * (time / sigma) ** 2)] *)
Definition symmetric_transit64 (m : libm) (time : list float)
    (depth sigma : float) : list float :=
  (fun x => (1 - x)%float)
    <$> ((fun x => (depth * x)%float)
           <$> (np_exp m
                  <$> ((fun x => (-0.5 * x)%float)
                         <$> (square
                                <$> ((fun t => (t / sigma)%float)
                                       <$> time))))).

(** One iteration of the loop of [asymmetric_transit]. *)
Definition asymmetric_step64 (m : libm) (depth sigma asymmetry_factor : float)
    (flux : list float) (it : nat * float) : list float :=
  let '(i, t) := it in
  if (t <? 0)%float
  then <[i := (1 - depth
                   * np_exp m (-0.5 * scalar_pow2 m (t / sigma)))%float]> flux
  else <[i := (1 - depth
                   * np_exp m
                       (-0.5
                        * scalar_pow2 m
                            (t / (sigma * asymmetry_factor))))%float]> flux.

Definition asymmetric_transit64 (m : libm) (time : list float)
    (depth sigma asymmetry_factor : float) : list float :=
  foldl (asymmetric_step64 m depth sigma asymmetry_factor)
    (replicate (length time) 1%float) (zip (seq 0 (length time)) time).

(** The factor [np.exp(-abs(t) / 0.3)] of the ring modulation. *)
Definition ring_damping64 (m : libm) (t : float) : float :=
  np_exp m (- abs t / 0.3)%float.

(** The envelope [ring_amp * np.exp(-abs(t) / 0.3)]. *)
Definition ring_envelope64 (m : libm) (ring_amp t : float) : float :=
  (ring_amp * ring_damping64 m t)%float.

End Binary64.

Import Binary64.

(** * Properties *)

(** ** Loops that fill an array *)

Section Fill.

Variable f : float64 -> float64.
Variable step : ndarray -> nat * float64 -> ndarray.
Hypothesis step_spec : forall flux i t, step flux (i, t) = <[i := f t]> flux.

Lemma fill_from (rest done init : ndarray) :
  length init = length rest ->
  foldl step (done ++ init) (zip (seq (length done) (length rest)) rest)
  = done ++ (f <$> rest).
Proof.
  revert done init.
  induction rest as [|t rest IH]; intros done init Hlen.
  - destruct init; [reflexivity | discriminate].
  - destruct init as [|x init]; [discriminate|].
    cbn [length seq zip zip_with foldl fmap list_fmap].
    rewrite step_spec.
    rewrite insert_app_r_alt by lia.
    rewrite Nat.sub_diag. cbn [insert list_insert].
    specialize (IH (done ++ [f t]) init).
    rewrite length_app, Nat.add_1_r in IH.
    rewrite <- !app_assoc in IH. cbn [app] in IH.
    apply IH. simpl in Hlen. lia.
Qed.

Lemma fill_all (a : ndarray) :
  foldl step (ones_like a) (enumerate a) = f <$> a.
Proof.
  unfold enumerate, ones_like.
  apply (fill_from a [] (replicate (length a) (Fin 1))).
  apply length_replicate.
Qed.

End Fill.

(** ** Arithmetic on finite values *)

Section Finite.

Lemma sign_of_pos (r : R) : 0 < r -> sign_of r = Pos.
Proof.
  intros Hr. unfold sign_of. destruct (Rlt_dec 0 r); [reflexivity | lra].
Qed.

Lemma sign_of_neg (r : R) : r < 0 -> sign_of r = Neg.
Proof.
  intros Hr. unfold sign_of.
  destruct (Rlt_dec 0 r); [lra|]. destruct (Rlt_dec r 0); [reflexivity | lra].
Qed.

Lemma sign_of_zero : sign_of 0 = Zero.
Proof.
  unfold sign_of.
  destruct (Rlt_dec 0 0); [lra|]. destruct (Rlt_dec 0 0); [lra | reflexivity].
Qed.

Lemma fdiv_fin (a b : R) : b <> 0 -> fdiv (Fin a) (Fin b) = Fin (a / b).
Proof.
  intros Hb. unfold fdiv. destruct (Req_dec_T b 0); [contradiction | reflexivity].
Qed.

Lemma flt_fin_true (a b : R) : a < b -> flt (Fin a) (Fin b) = true.
Proof.
  intros H. unfold flt. destruct (Rlt_dec a b); [reflexivity | contradiction].
Qed.

Lemma flt_fin_false (a b : R) : ~ a < b -> flt (Fin a) (Fin b) = false.
Proof.
  intros H. unfold flt. destruct (Rlt_dec a b); [contradiction | reflexivity].
Qed.

Lemma ingress_flux_fin (depth sigma t : R) :
  sigma <> 0 ->
  ingress_flux depth sigma (Fin t)
  = Fin (1 - depth * exp (- 0.5 * (t / sigma) ^ 2)).
Proof.
  intros Hs. unfold ingress_flux. rewrite fdiv_fin by assumption. reflexivity.
Qed.

Lemma egress_flux_fin (depth sigma asymmetry_factor t : R) :
  sigma * asymmetry_factor <> 0 ->
  egress_flux depth sigma asymmetry_factor (Fin t)
  = Fin (1 - depth * exp (- 0.5 * (t / (sigma * asymmetry_factor)) ^ 2)).
Proof.
  intros Hs. unfold egress_flux. cbn [fmul].
  rewrite fdiv_fin by assumption. reflexivity.
Qed.

Lemma ring_mod_fin (ring_amp ring_freq t : R) :
  ring_mod ring_amp ring_freq (Fin t) = Fin (ring_term ring_amp ring_freq t).
Proof.
  unfold ring_mod, ring_term. cbn [fmul fsin fabs fneg].
  rewrite fdiv_fin by lra. reflexivity.
Qed.

Lemma ring_envelope_fin (ring_amp t : R) :
  ring_envelope ring_amp (Fin t) = Fin (ring_amp * exp (- Rabs t / 0.3)).
Proof.
  unfold ring_envelope. cbn [fabs fneg].
  rewrite fdiv_fin by lra. reflexivity.
Qed.

Lemma asymmetric_point_fin (depth sigma asymmetry_factor t : R) :
  0 < sigma -> 0 < asymmetry_factor ->
  asymmetric_point depth sigma asymmetry_factor (Fin t)
  = Fin (gauss_dip depth (width_at sigma asymmetry_factor t) t).
Proof.
  intros Hs Ha. unfold asymmetric_point, width_at, gauss_dip, flt.
  destruct (Rlt_dec t 0).
  - apply ingress_flux_fin. lra.
  - apply egress_flux_fin. nra.
Qed.

Lemma gauss_dip_centre (depth w : R) : gauss_dip depth w 0 = 1 - depth.
Proof.
  unfold gauss_dip, Rdiv. rewrite Rmult_0_l. cbn [pow].
  rewrite Rmult_0_l, Rmult_0_r, exp_0. lra.
Qed.

Lemma float_min_pos : 0 < float_min.
Proof.
  unfold float_min. apply Rinv_0_lt_compat. apply pow_lt. lra.
Qed.

Lemma float_min_le_sixteenth : float_min <= / 16.
Proof.
  unfold float_min.
  replace 16 with (2 ^ 4) by (cbn [pow]; lra).
  apply Rinv_le_contravar; [apply pow_lt; lra|].
  apply Rle_pow; [lra | lia].
Qed.

Lemma float_max_ge_32 : 32 <= float_max.
Proof.
  unfold float_max.
  assert (H52 : / 2 ^ 52 <= 1).
  { rewrite <- Rinv_1. apply Rinv_le_contravar; [lra|].
    apply pow_R1_Rle. lra. }
  assert (H1023 : 2 ^ 5 <= 2 ^ 1023) by (apply Rle_pow; [lra | lia]).
  replace (2 ^ 5) with 32 in H1023 by (cbn [pow]; lra).
  nra.
Qed.

End Finite.

(** ** The three functions, sample by sample *)

Section Pointwise.

Variable tm : ndarray.

Lemma symmetric_transit_fmap (depth sigma : R) :
  symmetric_transit tm depth sigma = ingress_flux depth sigma <$> tm.
Proof.
  unfold symmetric_transit, bcast_l, bcast_r, exp_arr.
  rewrite <- !list_fmap_compose. reflexivity.
Qed.

Lemma asymmetric_transit_fmap (depth sigma asymmetry_factor : R) :
  asymmetric_transit tm depth sigma asymmetry_factor
  = asymmetric_point depth sigma asymmetry_factor <$> tm.
Proof.
  unfold asymmetric_transit. apply fill_all.
  intros flux i t. unfold asymmetric_step, asymmetric_point.
  destruct (flt t (Fin 0)); reflexivity.
Qed.

Lemma ringed_transit_fmap (depth sigma asymmetry_factor ring_amp ring_freq : R) :
  ringed_transit tm depth sigma asymmetry_factor ring_amp ring_freq
  = ringed_point depth sigma asymmetry_factor ring_amp ring_freq <$> tm.
Proof.
  unfold ringed_transit. apply fill_all.
  intros flux i t. unfold ringed_step, ringed_point, asymmetric_point.
  destruct (flt t (Fin 0)); reflexivity.
Qed.

Lemma symmetric_transit_length (depth sigma : R) :
  length (symmetric_transit tm depth sigma) = length tm.
Proof. rewrite symmetric_transit_fmap. apply length_fmap. Qed.

Lemma asymmetric_transit_length (depth sigma asymmetry_factor : R) :
  length (asymmetric_transit tm depth sigma asymmetry_factor) = length tm.
Proof. rewrite asymmetric_transit_fmap. apply length_fmap. Qed.

Lemma ringed_transit_length
    (depth sigma asymmetry_factor ring_amp ring_freq : R) :
  length (ringed_transit tm depth sigma asymmetry_factor ring_amp ring_freq)
  = length tm.
Proof. rewrite ringed_transit_fmap. apply length_fmap. Qed.

Lemma lookup_symmetric_fin (depth sigma : R) (i : nat) (t : R) :
  sigma <> 0 ->
  tm !! i = Some (Fin t) ->
  symmetric_transit tm depth sigma !! i = Some (Fin (gauss_dip depth sigma t)).
Proof.
  intros Hs Hi.
  rewrite symmetric_transit_fmap, list_lookup_fmap, Hi.
  cbn [fmap option_fmap option_map].
  rewrite ingress_flux_fin by assumption. reflexivity.
Qed.

Lemma lookup_asymmetric_fin (depth sigma asymmetry_factor : R)
    (i : nat) (t : R) :
  0 < sigma -> 0 < asymmetry_factor ->
  tm !! i = Some (Fin t) ->
  asymmetric_transit tm depth sigma asymmetry_factor !! i
  = Some (Fin (gauss_dip depth (width_at sigma asymmetry_factor t) t)).
Proof.
  intros Hs Ha Hi.
  rewrite asymmetric_transit_fmap, list_lookup_fmap, Hi.
  cbn [fmap option_fmap option_map].
  rewrite asymmetric_point_fin by assumption. reflexivity.
Qed.

Lemma lookup_ringed (depth sigma asymmetry_factor ring_amp ring_freq : R)
    (i : nat) (t : float64) :
  tm !! i = Some t ->
  ringed_transit tm depth sigma asymmetry_factor ring_amp ring_freq !! i
  = Some (ringed_point depth sigma asymmetry_factor ring_amp ring_freq t).
Proof.
  intros Hi. rewrite ringed_transit_fmap, list_lookup_fmap, Hi. reflexivity.
Qed.

End Pointwise.

(** ** The time grid *)

Section Grid.

Lemma time_length : length time = 400%nat.
Proof. unfold time, linspace. rewrite length_fmap. apply length_seq. Qed.

Lemma INR_399 : INR (400 - 1) = 399.
Proof. rewrite INR_IZR_INZ. reflexivity. Qed.

Lemma time_lookup (i : nat) :
  (i < 400)%nat -> time !! i = Some (Fin (- 1.5 + INR i * (3 / 399))).
Proof.
  intros Hi. unfold time, linspace.
  rewrite list_lookup_fmap, lookup_seq_lt by assumption.
  cbn [fmap option_fmap option_map Nat.add]. rewrite INR_399.
  do 2 f_equal. lra.
Qed.

Lemma time_lookup_inv (i : nat) (x : float64) :
  time !! i = Some x ->
  (i < 400)%nat /\ x = Fin (- 1.5 + INR i * (3 / 399)).
Proof.
  intros Hx.
  assert (Hi : (i < 400)%nat).
  { rewrite <- time_length. apply (lookup_lt_Some _ _ _ Hx). }
  split; [assumption|].
  rewrite (time_lookup i Hi) in Hx. congruence.
Qed.

Lemma INR_le_399 (i : nat) : (i < 400)%nat -> 0 <= INR i <= 399.
Proof.
  intros Hi. split; [apply pos_INR|].
  replace 399 with (INR 399) by (rewrite INR_IZR_INZ; reflexivity).
  apply le_INR. lia.
Qed.

(** No sample of the grid is the centre of the transit: the grid has an even
    number of points. *)
Lemma time_nonzero (i : nat) : - 1.5 + INR i * (3 / 399) <> 0.
Proof.
  destruct (Nat.le_gt_cases i 199) as [Hle | Hgt].
  - apply le_INR in Hle.
    replace (INR 199) with 199 in Hle by (rewrite INR_IZR_INZ; reflexivity).
    lra.
  - apply le_INR in Hgt.
    replace (INR 200) with 200 in Hgt by (rewrite INR_IZR_INZ; reflexivity).
    lra.
Qed.

Lemma time_mirror (i : nat) :
  (i < 400)%nat ->
  - 1.5 + INR (399 - i) * (3 / 399) = - (- 1.5 + INR i * (3 / 399)).
Proof.
  intros Hi. rewrite minus_INR by lia.
  replace (INR 399) with 399 by (rewrite INR_IZR_INZ; reflexivity).
  lra.
Qed.

Lemma time_all_finite :
  Forall (fun x => exists t : R, x = Fin t) time.
Proof.
  apply Forall_lookup_2. intros i x Hx.
  apply time_lookup_inv in Hx as [_ ->]. eexists; reflexivity.
Qed.

End Grid.

(** ** The symmetric transit *)

(** C1.  For every depth and every sigma > 0, the flux series returned by
    [symmetric_transit] holds, at the index of each time point [t] of the
    domain, the value [1 - depth * exp(-0.5 * (t / sigma)^2)]. *)
Theorem symmetric_transit_formula (tm : ndarray) (depth sigma : R) :
  0 < sigma ->
  forall (i : nat) (t : R),
    tm !! i = Some (Fin t) ->
    symmetric_transit tm depth sigma !! i
    = Some (Fin (1 - depth * exp (- 0.5 * (t / sigma) ^ 2))).
Proof.
  intros Hs i t Hi.
  rewrite (lookup_symmetric_fin tm depth sigma i t) by (assumption || lra).
  reflexivity.
Qed.

Lemma symmetric_transit_formula_witness :
  0 < 0.1
  /\ time !! 0%nat = Some (Fin (- 1.5 + INR 0 * (3 / 399)))
  /\ symmetric_transit time 0.03 0.1 !! 0%nat
     = Some (Fin (1 - 0.03
                      * exp (- 0.5 * ((- 1.5 + INR 0 * (3 / 399)) / 0.1) ^ 2))).
Proof.
  assert (Hs : 0 < 0.1) by lra.
  assert (Ht : time !! 0%nat = Some (Fin (- 1.5 + INR 0 * (3 / 399))))
    by (apply time_lookup; lia).
  split; [exact Hs|]. split; [exact Ht|].
  exact (symmetric_transit_formula time 0.03 0.1 Hs 0%nat _ Ht).
Defined.

(** ** The asymmetric transit *)

(** C2.  For every depth, sigma > 0 and asymmetry_factor > 0,
    [asymmetric_transit] holds at each time point [t] the Gaussian dip
    [1 - depth * exp(-0.5 * (t / w)^2)] whose width [w] is [sigma] when
    [t < 0] and [sigma * asymmetry_factor] when [t >= 0]. *)
Theorem asymmetric_transit_formula
    (tm : ndarray) (depth sigma asymmetry_factor : R) :
  0 < sigma -> 0 < asymmetry_factor ->
  forall (i : nat) (t : R),
    tm !! i = Some (Fin t) ->
    (t < 0 ->
     asymmetric_transit tm depth sigma asymmetry_factor !! i
     = Some (Fin (1 - depth * exp (- 0.5 * (t / sigma) ^ 2))))
    /\ (t >= 0 ->
        asymmetric_transit tm depth sigma asymmetry_factor !! i
        = Some (Fin (1 - depth
                         * exp (- 0.5 * (t / (sigma * asymmetry_factor)) ^ 2)))).
Proof.
  intros Hs Ha i t Hi.
  rewrite (lookup_asymmetric_fin tm depth sigma asymmetry_factor i t)
    by assumption.
  unfold gauss_dip, width_at.
  split; intros Ht; destruct (Rlt_dec t 0); try lra; reflexivity.
Qed.

Lemma asymmetric_transit_formula_witness :
  0 < 0.3 /\ 0 < 0.4
  /\ [Fin (- 1); Fin 1] !! 1%nat = Some (Fin 1)
  /\ asymmetric_transit [Fin (- 1); Fin 1] 0.2 0.3 0.4 !! 1%nat
     = Some (Fin (1 - 0.2 * exp (- 0.5 * (1 / (0.3 * 0.4)) ^ 2))).
Proof.
  assert (Hs : 0 < 0.3) by lra.
  assert (Ha : 0 < 0.4) by lra.
  assert (Hi : [Fin (- 1); Fin 1] !! 1%nat = Some (Fin 1)) by reflexivity.
  split; [exact Hs|]. split; [exact Ha|]. split; [exact Hi|].
  apply (asymmetric_transit_formula _ 0.2 0.3 0.4 Hs Ha 1%nat 1 Hi). lra.
Defined.


(** C6, amended.  At a sample [t = 0], [symmetric_transit] holds [1 - depth]
    for every depth and sigma > 0, and [asymmetric_transit] holds it too
    when the width [sigma * asymmetry_factor] is at least the smallest
    positive double (a smaller product underflows to 0.0 and the sample is
    NaN).  The test [t < 0] is false there, so the loop takes the egress
    branch for all parameters: with asymmetry_factor = 0 the sample is NaN,
    where the ingress expression gives [1 - depth]. *)
Theorem flux_at_centre
    (tm : ndarray) (depth sigma asymmetry_factor : R) (i : nat) :
  0 < sigma -> 0 < asymmetry_factor ->
  float_min <= sigma * asymmetry_factor ->
  tm !! i = Some (Fin 0) ->
  symmetric_transit tm depth sigma !! i = Some (Fin (1 - depth))
  /\ asymmetric_transit tm depth sigma asymmetry_factor !! i
     = Some (Fin (1 - depth))
  /\ flt (Fin 0) (Fin 0) = false
  /\ (forall (d s a : R) (flux : ndarray),
        asymmetric_step d s a flux (i, Fin 0)
        = <[i := egress_flux d s a (Fin 0)]> flux)
  /\ asymmetric_transit tm depth sigma 0 !! i = Some NaN
  /\ ingress_flux depth sigma (Fin 0) = Fin (1 - depth).
Proof.
  intros Hs Ha _ Hi.
  assert (Hlt : flt (Fin 0) (Fin 0) = false) by (apply flt_fin_false; lra).
  split; [|split; [|split; [|split; [|split]]]].
  - rewrite (lookup_symmetric_fin tm depth sigma i 0) by (assumption || lra).
    rewrite gauss_dip_centre. reflexivity.
  - rewrite (lookup_asymmetric_fin tm depth sigma asymmetry_factor i 0)
      by assumption.
    rewrite gauss_dip_centre. reflexivity.
  - exact Hlt.
  - intros d s a flux. unfold asymmetric_step. rewrite Hlt. reflexivity.
  - rewrite asymmetric_transit_fmap, list_lookup_fmap, Hi.
    cbn [fmap option_fmap option_map].
    unfold asymmetric_point. rewrite Hlt.
    unfold egress_flux. cbn [fmul]. unfold fdiv.
    destruct (Req_dec_T (sigma * 0) 0) as [_ | Hne];
      [|exfalso; apply Hne; ring].
    rewrite sign_of_zero. reflexivity.
  - rewrite ingress_flux_fin by lra.
    fold (gauss_dip depth sigma 0). rewrite gauss_dip_centre. reflexivity.
Qed.

Lemma flux_at_centre_witness :
  0 < 0.1 /\ 0 < 2 /\ float_min <= 0.1 * 2
  /\ [Fin (- 1); Fin 0; Fin 1] !! 1%nat = Some (Fin 0)
  /\ symmetric_transit [Fin (- 1); Fin 0; Fin 1] 0.03 0.1 !! 1%nat
     = Some (Fin (1 - 0.03))
  /\ asymmetric_transit [Fin (- 1); Fin 0; Fin 1] 0.03 0.1 2 !! 1%nat
     = Some (Fin (1 - 0.03)).
Proof.
  assert (Hs : 0 < 0.1) by lra.
  assert (Ha : 0 < 2) by lra.
  assert (Hw : float_min <= 0.1 * 2)
    by (pose proof float_min_le_sixteenth; lra).
  assert (Hi : [Fin (- 1); Fin 0; Fin 1] !! 1%nat = Some (Fin 0))
    by reflexivity.
  destruct (flux_at_centre _ 0.03 0.1 2 1%nat Hs Ha Hw Hi) as (H1 & H2 & _).
  repeat split; assumption.
Defined.

(** ** The ringed transit *)

(** C3.  For every depth, sigma > 0, asymmetry_factor > 0, ring_amp and
    ring_freq, the value of [ringed_transit] at each time point [t] is the
    value of [asymmetric_transit] there plus the modulation
    [ring_amp * sin(ring_freq * t) * exp(-|t| / 0.3)]; the modulation is that
    one expression of [t] on both sides of zero. *)
Theorem ringed_is_asymmetric_plus_ring
    (tm : ndarray) (depth sigma asymmetry_factor ring_amp ring_freq : R) :
  0 < sigma -> 0 < asymmetry_factor ->
  forall (i : nat) (t : R),
    tm !! i = Some (Fin t) ->
    exists a : R,
      asymmetric_transit tm depth sigma asymmetry_factor !! i = Some (Fin a)
      /\ ring_mod ring_amp ring_freq (Fin t)
         = Fin (ring_amp * sin (ring_freq * t) * exp (- Rabs t / 0.3))
      /\ ringed_transit tm depth sigma asymmetry_factor ring_amp ring_freq !! i
         = Some (Fin (a + ring_amp * sin (ring_freq * t)
                          * exp (- Rabs t / 0.3))).
Proof.
  intros Hs Ha i t Hi.
  exists (gauss_dip depth (width_at sigma asymmetry_factor t) t).
  split; [apply lookup_asymmetric_fin; assumption|].
  split; [apply ring_mod_fin|].
  rewrite (lookup_ringed tm _ _ _ _ _ i (Fin t) Hi).
  unfold ringed_point.
  rewrite asymmetric_point_fin by assumption.
  rewrite ring_mod_fin. reflexivity.
Qed.

Lemma ringed_is_asymmetric_plus_ring_witness :
  0 < 0.3 /\ 0 < 0.4
  /\ [Fin (- 1); Fin 1] !! 0%nat = Some (Fin (- 1))
  /\ exists a : R,
       asymmetric_transit [Fin (- 1); Fin 1] 0.2 0.3 0.4 !! 0%nat
       = Some (Fin a)
       /\ ringed_transit [Fin (- 1); Fin 1] 0.2 0.3 0.4 0.03 20 !! 0%nat
          = Some (Fin (a + 0.03 * sin (20 * - 1) * exp (- Rabs (- 1) / 0.3))).
Proof.
  assert (Hs : 0 < 0.3) by lra.
  assert (Ha : 0 < 0.4) by lra.
  assert (Hi : [Fin (- 1); Fin 1] !! 0%nat = Some (Fin (- 1))) by reflexivity.
  split; [exact Hs|]. split; [exact Ha|]. split; [exact Hi|].
  destruct (ringed_is_asymmetric_plus_ring _ 0.2 0.3 0.4 0.03 20 Hs Ha
              0%nat (- 1) Hi) as (a & H1 & _ & H2).
  exists a. split; assumption.
Defined.

(** ** Symmetry about the centre *)

Lemma fpow2_fdiv_fneg (t : float64) (sigma : R) :
  fpow (fdiv (fneg t) (Fin sigma)) 2 = fpow (fdiv t (Fin sigma)) 2.
Proof.
  destruct t as [a| | |]; cbn [fneg fdiv].
  - destruct (Req_dec_T sigma 0) as [Hz | Hnz].
    + unfold sign_of.
      destruct (Rlt_dec 0 (- a)), (Rlt_dec (- a) 0),
        (Rlt_dec 0 a), (Rlt_dec a 0); try lra; reflexivity.
    + cbn [fpow]. f_equal. field. assumption.
  - destruct (Req_dec_T sigma 0); [reflexivity|].
    destruct (sign_of sigma); reflexivity.
  - destruct (Req_dec_T sigma 0); [reflexivity|].
    destruct (sign_of sigma); reflexivity.
  - reflexivity.
Qed.

Lemma ingress_flux_fneg (depth sigma : R) (t : float64) :
  ingress_flux depth sigma (fneg t) = ingress_flux depth sigma t.
Proof. unfold ingress_flux. rewrite fpow2_fdiv_fneg. reflexivity. Qed.

(** C7, amended.  The flux of [symmetric_transit] is an even function of
    the sample: whenever a domain holds [t] at one index and [-t] at
    another, the series holds the same value at both, for every depth and
    sigma (the sample enters only through the square of [t / sigma], and
    negation is exact). *)
Theorem symmetric_transit_even
    (tm : ndarray) (depth sigma : R) (i j : nat) (t : float64) :
  tm !! i = Some t -> tm !! j = Some (fneg t) ->
  symmetric_transit tm depth sigma !! j
  = symmetric_transit tm depth sigma !! i
  /\ symmetric_transit tm depth sigma !! i
     = Some (ingress_flux depth sigma t).
Proof.
  intros Hi Hj.
  rewrite symmetric_transit_fmap, !list_lookup_fmap, Hi, Hj.
  cbn [fmap option_fmap option_map].
  rewrite ingress_flux_fneg. split; reflexivity.
Qed.

Lemma symmetric_transit_even_witness :
  [Fin (- 1.5); Fin 0.5; Fin 1.5] !! 0%nat = Some (Fin (- 1.5))
  /\ [Fin (- 1.5); Fin 0.5; Fin 1.5] !! 2%nat = Some (fneg (Fin (- 1.5)))
  /\ symmetric_transit [Fin (- 1.5); Fin 0.5; Fin 1.5] 0.03 0.1 !! 2%nat
     = symmetric_transit [Fin (- 1.5); Fin 0.5; Fin 1.5] 0.03 0.1 !! 0%nat.
Proof.
  assert (Hi : [Fin (- 1.5); Fin 0.5; Fin 1.5] !! 0%nat
               = Some (Fin (- 1.5))) by reflexivity.
  assert (Hj : [Fin (- 1.5); Fin 0.5; Fin 1.5] !! 2%nat
               = Some (fneg (Fin (- 1.5)))).
  { cbn [lookup list_lookup fneg]. do 2 f_equal. lra. }
  split; [exact Hi|]. split; [exact Hj|].
  exact (proj1 (symmetric_transit_even _ 0.03 0.1 0%nat 2%nat _ Hi Hj)).
Defined.

(** ** Decay of the ring modulation *)

(** C8, amended.  For ring_amp > 0 the envelope
    [ring_amp * exp(-|t| / 0.3)] of the ring modulation never grows with
    [|t|]: whenever [|t1| < |t2|], the envelope at [t2] is at most the
    envelope at [t1] (on doubles the two can be equal).  The modulation is
    the envelope times the sine factor and never exceeds it in absolute
    value. *)
Theorem ring_envelope_decays (ring_amp ring_freq t1 t2 : R) :
  0 < ring_amp -> Rabs t1 < Rabs t2 ->
  flt (ring_envelope ring_amp (Fin t1)) (ring_envelope ring_amp (Fin t2))
  = false
  /\ ring_amp * exp (- Rabs t2 / 0.3) <= ring_amp * exp (- Rabs t1 / 0.3)
  /\ forall t : R,
       exists e m : R,
         ring_envelope ring_amp (Fin t) = Fin e
         /\ ring_mod ring_amp ring_freq (Fin t) = Fin m
         /\ m = e * sin (ring_freq * t)
         /\ Rabs m <= e.
Proof.
  intros Hamp Habs.
  assert (Hlt : ring_amp * exp (- Rabs t2 / 0.3)
                < ring_amp * exp (- Rabs t1 / 0.3)).
  { apply Rmult_lt_compat_l; [assumption|].
    apply exp_increasing. lra. }
  split; [|split; [left; exact Hlt|]].
  - rewrite !ring_envelope_fin. apply flt_fin_false. lra.
  - intros t.
    exists (ring_amp * exp (- Rabs t / 0.3)).
    exists (ring_term ring_amp ring_freq t).
    split; [apply ring_envelope_fin|].
    split; [apply ring_mod_fin|].
    unfold ring_term.
    split; [ring|].
    pose proof (SIN_bound (ring_freq * t)) as [Hlo Hhi].
    assert (He : 0 < ring_amp * exp (- Rabs t / 0.3))
      by (apply Rmult_lt_0_compat; [assumption | apply exp_pos]).
    replace (ring_amp * sin (ring_freq * t) * exp (- Rabs t / 0.3))
      with (ring_amp * exp (- Rabs t / 0.3) * sin (ring_freq * t)) by ring.
    apply Rabs_le.
    generalize dependent (ring_amp * exp (- Rabs t / 0.3)).
    generalize dependent (sin (ring_freq * t)).
    intros s Hlo Hhi e He. nra.
Qed.

Lemma ring_envelope_decays_witness :
  0 < 0.03 /\ Rabs 0 < Rabs 1
  /\ flt (ring_envelope 0.03 (Fin 0)) (ring_envelope 0.03 (Fin 1)) = false.
Proof.
  assert (Hamp : 0 < 0.03) by lra.
  assert (Habs : Rabs 0 < Rabs 1) by (rewrite Rabs_R0, Rabs_R1; lra).
  split; [exact Hamp|]. split; [exact Habs|].
  exact (proj1 (ring_envelope_decays 0.03 20 0 1 Hamp Habs)).
Defined.

(** ** The time domain and the length of the series *)

(** C9.  The shared time domain has exactly 400 points, runs from -1.5 to
    1.5 and stays inside that interval, is strictly increasing and evenly
    spaced (step 3/399); every flux series of the three functions has one
    value per point of the domain, 400 in all. *)
Theorem time_domain_shape :
  length time = 400%nat
  /\ time !! 0%nat = Some (Fin (- 1.5))
  /\ time !! 399%nat = Some (Fin 1.5)
  /\ (forall (i : nat) (x : float64),
        time !! i = Some x -> exists t : R, x = Fin t /\ - 1.5 <= t <= 1.5)
  /\ (forall (i j : nat) (x y : float64),
        time !! i = Some x -> time !! j = Some y -> (i < j)%nat ->
        flt x y = true)
  /\ (forall (i : nat) (x y : float64),
        time !! i = Some x -> time !! (S i) = Some y ->
        fsub y x = Fin (3 / 399))
  /\ (forall depth sigma : R,
        length (symmetric_transit time depth sigma) = length time)
  /\ (forall depth sigma asymmetry_factor : R,
        length (asymmetric_transit time depth sigma asymmetry_factor)
        = length time)
  /\ (forall depth sigma asymmetry_factor ring_amp ring_freq : R,
        length (ringed_transit time depth sigma asymmetry_factor
                  ring_amp ring_freq)
        = length time).
Proof.
  split; [apply time_length|].
  split.
  { rewrite time_lookup by lia. do 2 f_equal. cbn [INR]. lra. }
  split.
  { rewrite time_lookup by lia. do 2 f_equal.
    replace (INR 399) with 399 by (rewrite INR_IZR_INZ; reflexivity). lra. }
  split.
  { intros i x Hx. apply time_lookup_inv in Hx as [Hi ->].
    eexists; split; [reflexivity|].
    pose proof (INR_le_399 i Hi). lra. }
  split.
  { intros i j x y Hx Hy Hij.
    apply time_lookup_inv in Hx as [Hi ->].
    apply time_lookup_inv in Hy as [Hj ->].
    apply flt_fin_true. apply lt_INR in Hij. lra. }
  split.
  { intros i x y Hx Hy.
    apply time_lookup_inv in Hx as [Hi ->].
    apply time_lookup_inv in Hy as [Hj ->].
    unfold fsub. cbn [fneg fadd]. f_equal. rewrite S_INR. lra. }
  split; [intros; apply symmetric_transit_length|].
  split; [intros; apply asymmetric_transit_length|].
  intros; apply ringed_transit_length.
Qed.

(** ** Range of the flux *)

Lemma exp_le_1 (x : R) : x <= 0 -> exp x <= 1.
Proof.
  intros [Hlt | ->].
  - rewrite <- exp_0. left. apply exp_increasing. exact Hlt.
  - rewrite exp_0. lra.
Qed.

Lemma gauss_dip_range (depth w t : R) :
  0 < depth -> 1 - depth <= gauss_dip depth w t < 1.
Proof.
  intros Hd. unfold gauss_dip.
  pose proof (exp_pos (- 0.5 * (t / w) ^ 2)) as Hpos.
  assert (Hle : exp (- 0.5 * (t / w) ^ 2) <= 1).
  { apply exp_le_1. pose proof (pow2_ge_0 (t / w)). lra. }
  split; nra.
Qed.

(** C10, amended.  For 0 < depth < 1, sigma > 0 and asymmetry_factor > 0,
    every value of the flux series of [symmetric_transit] and of
    [asymmetric_transit] is a finite number in the closed interval
    [1 - depth, 1]: never below [1 - depth], never above the baseline 1.0
    (which the doubles reach in the far tail). *)
Theorem flux_range (depth sigma asymmetry_factor : R) :
  0 < depth < 1 -> 0 < sigma -> 0 < asymmetry_factor ->
  Forall (fun x => exists r : R, x = Fin r /\ 1 - depth <= r <= 1)
         (symmetric_transit time depth sigma)
  /\ Forall (fun x => exists r : R, x = Fin r /\ 1 - depth <= r <= 1)
            (asymmetric_transit time depth sigma asymmetry_factor).
Proof.
  intros [Hd0 Hd1] Hs Ha. split.
  - rewrite symmetric_transit_fmap. apply Forall_fmap.
    eapply Forall_impl; [apply time_all_finite|].
    intros x [t ->]. cbn [compose].
    exists (gauss_dip depth sigma t). split.
    + apply ingress_flux_fin. lra.
    + pose proof (gauss_dip_range depth sigma t Hd0). lra.
  - rewrite asymmetric_transit_fmap. apply Forall_fmap.
    eapply Forall_impl; [apply time_all_finite|].
    intros x [t ->]. cbn [compose].
    exists (gauss_dip depth (width_at sigma asymmetry_factor t) t). split.
    + apply asymmetric_point_fin; assumption.
    + pose proof (gauss_dip_range depth
                    (width_at sigma asymmetry_factor t) t Hd0). lra.
Qed.

Lemma flux_range_witness :
  0 < 0.03 < 1 /\ 0 < 0.1 /\ 0 < 2
  /\ Forall (fun x => exists r : R, x = Fin r /\ 1 - 0.03 <= r <= 1) flux_3.
Proof.
  assert (Hd : 0 < 0.03 < 1) by lra.
  assert (Hs : 0 < 0.1) by lra.
  assert (Ha : 0 < 2) by lra.
  split; [exact Hd|]. split; [exact Hs|]. split; [exact Ha|].
  exact (proj1 (flux_range 0.03 0.1 2 Hd Hs Ha)).
Defined.

(** ** A zero width *)

Section ZeroWidth.

(** Past the division by zero: the square of either infinity is [+inf],
    [-0.5 * inf] is [-inf], its exponential is 0 and the dip vanishes. *)
Lemma dip_of_infinite_ratio (depth : R) (q : float64) :
  q = PInf \/ q = NInf ->
  fsub (Fin 1) (fmul (Fin depth) (fexp (fmul (Fin (- 0.5)) (fpow q 2))))
  = Fin 1.
Proof.
  intros [-> | ->]; cbn [fpow Nat.even fmul];
    rewrite sign_of_neg by lra; cbn [inf_signed fneg fexp fmul];
    unfold fsub; cbn [fneg fadd]; f_equal; lra.
Qed.

Lemma fdiv_by_zero (t w : R) :
  w = 0 -> t <> 0 -> fdiv (Fin t) (Fin w) = PInf \/ fdiv (Fin t) (Fin w) = NInf.
Proof.
  intros Hw Ht. unfold fdiv, sign_of.
  destruct (Req_dec_T w 0); [|contradiction].
  destruct (Rlt_dec 0 t); [left; reflexivity|].
  destruct (Rlt_dec t 0); [right; reflexivity | lra].
Qed.

Lemma ingress_flux_zero_width (depth t : R) :
  t <> 0 -> ingress_flux depth 0 (Fin t) = Fin 1.
Proof.
  intros Ht. unfold ingress_flux.
  apply dip_of_infinite_ratio, fdiv_by_zero; [reflexivity | assumption].
Qed.

Lemma egress_flux_zero_width (depth sigma asymmetry_factor t : R) :
  sigma * asymmetry_factor = 0 -> t <> 0 ->
  egress_flux depth sigma asymmetry_factor (Fin t) = Fin 1.
Proof.
  intros Hw Ht. unfold egress_flux. cbn [fmul].
  apply dip_of_infinite_ratio, fdiv_by_zero; assumption.
Qed.

Lemma fmap_constant (f : float64 -> float64) (c : float64) (a : ndarray) :
  Forall (fun x => f x = c) a -> f <$> a = replicate (length a) c.
Proof.
  induction 1 as [|x a Hx _ IH]; [reflexivity|].
  cbn [fmap list_fmap length replicate]. rewrite Hx. f_equal. exact IH.
Qed.

Lemma time_all_nonzero :
  Forall (fun x => exists t : R, x = Fin t /\ t <> 0) time.
Proof.
  apply Forall_lookup_2. intros i x Hx.
  apply time_lookup_inv in Hx as [_ ->].
  eexists; split; [reflexivity | apply time_nonzero].
Qed.

Lemma symmetric_transit_sigma_zero (depth : R) :
  symmetric_transit time depth 0 = replicate 400 (Fin 1).
Proof.
  rewrite symmetric_transit_fmap, <- time_length.
  apply fmap_constant.
  eapply Forall_impl; [apply time_all_nonzero|].
  intros x (t & -> & Ht). apply ingress_flux_zero_width. exact Ht.
Qed.

Lemma asymmetric_transit_sigma_zero (depth asymmetry_factor : R) :
  asymmetric_transit time depth 0 asymmetry_factor = replicate 400 (Fin 1).
Proof.
  rewrite asymmetric_transit_fmap, <- time_length.
  apply fmap_constant.
  eapply Forall_impl; [apply time_all_nonzero|].
  intros x (t & -> & Ht). unfold asymmetric_point.
  destruct (flt (Fin t) (Fin 0)).
  - apply ingress_flux_zero_width. exact Ht.
  - apply egress_flux_zero_width; [lra | exact Ht].
Qed.

End ZeroWidth.

(** ** Parameter validation *)

(** C4, as stated, fails: [sigma = 0] is not rejected.  The call returns,
    and what it returns is the flat series 1.0: the infinity of the division
    by zero has been absorbed without a trace. *)
Lemma zero_sigma_not_rejected :
  0 <= 0
  /\ call_symmetric_transit 0.03 0 = Returns (replicate 400 (Fin 1))
  /\ call_symmetric_transit 0.03 0 <> Raises InvalidParameter.
Proof.
  split; [lra|].
  unfold call_symmetric_transit. rewrite symmetric_transit_sigma_zero.
  split; [reflexivity | discriminate].
Qed.

(** C4, amended.  None of the three functions validates its parameters: for
    every depth, sigma, asymmetry_factor, ring_amp and ring_freq, values
    [<= 0] included, each call returns a flux series of 400 values and
    raises nothing; with [sigma = 0], [symmetric_transit] and
    [asymmetric_transit] return 1.0 at every point of the time grid. *)
Theorem no_parameter_validation
    (depth sigma asymmetry_factor ring_amp ring_freq : R) :
  (exists flux : ndarray,
     call_symmetric_transit depth sigma = Returns flux
     /\ length flux = 400%nat)
  /\ (exists flux : ndarray,
        call_asymmetric_transit depth sigma asymmetry_factor = Returns flux
        /\ length flux = 400%nat)
  /\ (exists flux : ndarray,
        call_ringed_transit depth sigma asymmetry_factor ring_amp ring_freq
        = Returns flux
        /\ length flux = 400%nat)
  /\ symmetric_transit time depth 0 = replicate 400 (Fin 1)
  /\ asymmetric_transit time depth 0 asymmetry_factor
     = replicate 400 (Fin 1).
Proof.
  split.
  { eexists; split; [reflexivity|].
    rewrite symmetric_transit_length. apply time_length. }
  split.
  { eexists; split; [reflexivity|].
    rewrite asymmetric_transit_length. apply time_length. }
  split.
  { eexists; split; [reflexivity|].
    rewrite ringed_transit_length. apply time_length. }
  split.
  - apply symmetric_transit_sigma_zero.
  - apply asymmetric_transit_sigma_zero.
Qed.

(** * Further properties of the model functions *)

(** ** The sign of a width *)

Lemma sign_of_opp (w : R) :
  sign_of (- w)
  = match sign_of w with Pos => Neg | Neg => Pos | Zero => Zero end.
Proof.
  unfold sign_of.
  destruct (Rlt_dec 0 (- w)), (Rlt_dec (- w) 0),
    (Rlt_dec 0 w), (Rlt_dec w 0); try lra; reflexivity.
Qed.

Lemma fpow2_fdiv_opp_width (t : float64) (w : R) :
  fpow (fdiv t (Fin (- w))) 2 = fpow (fdiv t (Fin w)) 2.
Proof.
  destruct t as [a| | |]; cbn [fdiv]; try reflexivity;
    destruct (Req_dec_T (- w) 0) as [Hz | Hnz],
      (Req_dec_T w 0) as [Hz' | Hnz'];
    try reflexivity;
    try (exfalso; apply Hnz'; lra); try (exfalso; apply Hnz; lra).
  - cbn [fpow]. f_equal. field. assumption.
  - rewrite sign_of_opp. destruct (sign_of w); reflexivity.
  - rewrite sign_of_opp. destruct (sign_of w); reflexivity.
Qed.

Lemma ingress_flux_opp_width (depth sigma : R) (t : float64) :
  ingress_flux depth (- sigma) t = ingress_flux depth sigma t.
Proof. unfold ingress_flux. rewrite fpow2_fdiv_opp_width. reflexivity. Qed.

Lemma egress_flux_opp_width (depth sigma asymmetry_factor : R) (t : float64) :
  egress_flux depth (- sigma) asymmetry_factor t
  = egress_flux depth sigma asymmetry_factor t
  /\ egress_flux depth sigma (- asymmetry_factor) t
     = egress_flux depth sigma asymmetry_factor t.
Proof.
  unfold egress_flux. cbn [fmul].
  replace (- sigma * asymmetry_factor) with (- (sigma * asymmetry_factor))
    by ring.
  replace (sigma * - asymmetry_factor) with (- (sigma * asymmetry_factor))
    by ring.
  rewrite fpow2_fdiv_opp_width. split; reflexivity.
Qed.

(** X1.  The widths enter the flux only through a square: negating sigma
    leaves the series of [symmetric_transit] and of [asymmetric_transit]
    unchanged, and so does negating asymmetry_factor. *)
Theorem width_sign_irrelevant
    (tm : ndarray) (depth sigma asymmetry_factor : R) :
  symmetric_transit tm depth (- sigma) = symmetric_transit tm depth sigma
  /\ asymmetric_transit tm depth (- sigma) asymmetry_factor
     = asymmetric_transit tm depth sigma asymmetry_factor
  /\ asymmetric_transit tm depth sigma (- asymmetry_factor)
     = asymmetric_transit tm depth sigma asymmetry_factor.
Proof.
  rewrite !symmetric_transit_fmap, !asymmetric_transit_fmap.
  split; [|split]; apply list_fmap_ext; intros _ t _.
  - apply ingress_flux_opp_width.
  - unfold asymmetric_point. rewrite ingress_flux_opp_width.
    rewrite (proj1 (egress_flux_opp_width depth sigma asymmetry_factor t)).
    reflexivity.
  - unfold asymmetric_point.
    rewrite (proj2 (egress_flux_opp_width depth sigma asymmetry_factor t)).
    reflexivity.
Qed.

(** ** Degenerate parameters *)

Lemma fadd_zero_r (x : float64) (r : R) : r = 0 -> fadd x (Fin r) = x.
Proof.
  intros ->. destruct x as [a| | |]; cbn [fadd]; try reflexivity.
  f_equal. lra.
Qed.

(** X2.  Without ring amplitude there are no rings: on a domain of finite
    samples [t] whose product [ring_freq * t] stays within the finite
    doubles, [ringed_transit] with [ring_amp = 0] returns the series of
    [asymmetric_transit]. *)
Theorem ringed_without_rings
    (tm : ndarray) (depth sigma asymmetry_factor ring_freq : R) :
  Forall (fun x => exists t : R,
            x = Fin t /\ Rabs (ring_freq * t) <= float_max) tm ->
  ringed_transit tm depth sigma asymmetry_factor 0 ring_freq
  = asymmetric_transit tm depth sigma asymmetry_factor.
Proof.
  intros Hfin. rewrite ringed_transit_fmap, asymmetric_transit_fmap.
  apply Forall_fmap_ext_1.
  eapply Forall_impl; [exact Hfin|].
  intros x (t & -> & _). unfold ringed_point. rewrite ring_mod_fin.
  apply fadd_zero_r. unfold ring_term. ring.
Qed.

Lemma ringed_without_rings_witness :
  Forall (fun x => exists t : R, x = Fin t /\ Rabs (20 * t) <= float_max)
         [Fin (- 1); Fin 1]
  /\ ringed_transit [Fin (- 1); Fin 1] 0.2 0.3 0.4 0 20
     = asymmetric_transit [Fin (- 1); Fin 1] 0.2 0.3 0.4.
Proof.
  assert (H : Forall (fun x => exists t : R,
                        x = Fin t /\ Rabs (20 * t) <= float_max)
                     [Fin (- 1); Fin 1]).
  { pose proof float_max_ge_32 as Hmax.
    repeat constructor.
    - exists (- 1). split; [reflexivity|]. apply Rabs_le. lra.
    - exists 1. split; [reflexivity|]. apply Rabs_le. lra. }
  split; [exact H|].
  exact (ringed_without_rings _ 0.2 0.3 0.4 20 H).
Defined.

(** X3.  A transit of depth 0 is no transit: at finite non-zero samples
    [symmetric_transit] and [asymmetric_transit] return 1.0, for every
    sigma and asymmetry_factor, zero and negative ones included. *)
Theorem zero_depth_is_flat (tm : ndarray) (sigma asymmetry_factor : R) :
  Forall (fun x => exists t : R, x = Fin t /\ t <> 0) tm ->
  symmetric_transit tm 0 sigma = replicate (length tm) (Fin 1)
  /\ asymmetric_transit tm 0 sigma asymmetry_factor
     = replicate (length tm) (Fin 1).
Proof.
  intros Hfin.
  assert (Hin : forall t : R, t <> 0 -> ingress_flux 0 sigma (Fin t) = Fin 1).
  { intros t Ht. destruct (Req_dec_T sigma 0) as [-> | Hs].
    - apply ingress_flux_zero_width. exact Ht.
    - rewrite ingress_flux_fin by assumption. f_equal. lra. }
  assert (Heg : forall t : R,
            t <> 0 -> egress_flux 0 sigma asymmetry_factor (Fin t) = Fin 1).
  { intros t Ht.
    destruct (Req_dec_T (sigma * asymmetry_factor) 0) as [Hz | Hnz].
    - apply egress_flux_zero_width; assumption.
    - rewrite egress_flux_fin by assumption. f_equal. lra. }
  rewrite symmetric_transit_fmap, asymmetric_transit_fmap.
  split; apply fmap_constant; (eapply Forall_impl; [exact Hfin|]);
    intros x (t & -> & Ht).
  - apply Hin. exact Ht.
  - unfold asymmetric_point. destruct (flt (Fin t) (Fin 0)).
    + apply Hin. exact Ht.
    + apply Heg. exact Ht.
Qed.

Lemma zero_depth_is_flat_witness :
  Forall (fun x => exists t : R, x = Fin t /\ t <> 0) time
  /\ symmetric_transit time 0 0 = replicate (length time) (Fin 1)
  /\ asymmetric_transit time 0 0.1 2 = replicate (length time) (Fin 1).
Proof.
  split; [apply time_all_nonzero|]. split.
  - exact (proj1 (zero_depth_is_flat time 0 2 time_all_nonzero)).
  - exact (proj2 (zero_depth_is_flat time 0.1 2 time_all_nonzero)).
Defined.

(** ** Shape of the dip *)

Lemma ratio_sqr_lt (a b w1 w2 : R) :
  Rabs (a / w1) < Rabs (b / w2) -> (a / w1) ^ 2 < (b / w2) ^ 2.
Proof.
  intros H. rewrite <- !Rsqr_pow2. apply Rsqr_lt_abs_1. exact H.
Qed.

Lemma gauss_dip_lt (depth w1 w2 t1 t2 : R) :
  0 < depth ->
  Rabs (t1 / w1) < Rabs (t2 / w2) ->
  gauss_dip depth w1 t1 < gauss_dip depth w2 t2.
Proof.
  intros Hd Hr. unfold gauss_dip.
  apply ratio_sqr_lt in Hr.
  assert (He : exp (- 0.5 * (t2 / w2) ^ 2) < exp (- 0.5 * (t1 / w1) ^ 2))
    by (apply exp_increasing; lra).
  nra.
Qed.

Lemma Rabs_ratio (t w : R) : 0 < w -> Rabs (t / w) = Rabs t / w.
Proof.
  intros Hw. unfold Rdiv. rewrite Rabs_mult.
  rewrite (Rabs_pos_eq (/ w)); [reflexivity|].
  left. apply Rinv_0_lt_compat. exact Hw.
Qed.

(** X4.  The dip of [symmetric_transit] is deepest at the centre: for
    depth > 0 and sigma > 0, of two samples the one farther from zero never
    has the smaller flux. *)
Theorem flux_rises_away_from_centre
    (tm : ndarray) (depth sigma : R) (i j : nat) (t1 t2 : R) :
  0 < depth -> 0 < sigma ->
  tm !! i = Some (Fin t1) -> tm !! j = Some (Fin t2) ->
  Rabs t1 < Rabs t2 ->
  exists y1 y2 : R,
    symmetric_transit tm depth sigma !! i = Some (Fin y1)
    /\ symmetric_transit tm depth sigma !! j = Some (Fin y2)
    /\ y1 <= y2.
Proof.
  intros Hd Hs Hi Hj Habs.
  exists (gauss_dip depth sigma t1), (gauss_dip depth sigma t2).
  split; [apply lookup_symmetric_fin; [lra | exact Hi]|].
  split; [apply lookup_symmetric_fin; [lra | exact Hj]|].
  left. apply gauss_dip_lt; [exact Hd|].
  rewrite !Rabs_ratio by exact Hs.
  apply Rmult_lt_compat_r; [apply Rinv_0_lt_compat; exact Hs | exact Habs].
Qed.

Lemma flux_rises_away_from_centre_witness :
  0 < 0.03 /\ 0 < 0.1
  /\ [Fin 0; Fin 1] !! 0%nat = Some (Fin 0)
  /\ [Fin 0; Fin 1] !! 1%nat = Some (Fin 1)
  /\ Rabs 0 < Rabs 1
  /\ exists y1 y2 : R,
       symmetric_transit [Fin 0; Fin 1] 0.03 0.1 !! 0%nat = Some (Fin y1)
       /\ symmetric_transit [Fin 0; Fin 1] 0.03 0.1 !! 1%nat = Some (Fin y2)
       /\ y1 <= y2.
Proof.
  assert (Hd : 0 < 0.03) by lra.
  assert (Hs : 0 < 0.1) by lra.
  assert (Hi : [Fin 0; Fin 1] !! 0%nat = Some (Fin 0)) by reflexivity.
  assert (Hj : [Fin 0; Fin 1] !! 1%nat = Some (Fin 1)) by reflexivity.
  assert (Habs : Rabs 0 < Rabs 1) by (rewrite Rabs_R0, Rabs_R1; lra).
  split; [exact Hd|]. split; [exact Hs|]. split; [exact Hi|].
  split; [exact Hj|]. split; [exact Habs|].
  exact (flux_rises_away_from_centre _ 0.03 0.1 0%nat 1%nat 0 1
           Hd Hs Hi Hj Habs).
Defined.

(** X5.  The docstring of [asymmetric_transit]: with asymmetry_factor > 1
    the egress is the slower side (at a time [t > 0] after the centre the
    flux is no higher than it was at [-t] before it), with
    asymmetry_factor < 1 the ingress is. *)
Theorem asymmetry_factor_slows_one_side
    (tm : ndarray) (depth sigma asymmetry_factor : R) (i j : nat) (t : R) :
  0 < depth -> 0 < sigma -> 0 < asymmetry_factor -> 0 < t ->
  tm !! i = Some (Fin (- t)) -> tm !! j = Some (Fin t) ->
  exists before after : R,
    asymmetric_transit tm depth sigma asymmetry_factor !! i
    = Some (Fin before)
    /\ asymmetric_transit tm depth sigma asymmetry_factor !! j
       = Some (Fin after)
    /\ (1 < asymmetry_factor -> after <= before)
    /\ (asymmetry_factor < 1 -> before <= after).
Proof.
  intros Hd Hs Ha Ht Hi Hj.
  assert (Hw : 0 < sigma * asymmetry_factor) by nra.
  exists (gauss_dip depth sigma (- t)).
  exists (gauss_dip depth (sigma * asymmetry_factor) t).
  split.
  { rewrite (lookup_asymmetric_fin tm depth sigma asymmetry_factor i (- t))
      by assumption.
    unfold width_at. destruct (Rlt_dec (- t) 0); [reflexivity | lra]. }
  split.
  { rewrite (lookup_asymmetric_fin tm depth sigma asymmetry_factor j t)
      by assumption.
    unfold width_at. destruct (Rlt_dec t 0); [lra | reflexivity]. }
  assert (Hinv : 0 < / sigma) by (apply Rinv_0_lt_compat; exact Hs).
  assert (Hinvw : 0 < / (sigma * asymmetry_factor))
    by (apply Rinv_0_lt_compat; exact Hw).
  split; intros Hf; left; apply gauss_dip_lt; try exact Hd;
    rewrite !Rabs_ratio by assumption; rewrite Rabs_Ropp;
    rewrite (Rabs_pos_eq t) by lra; unfold Rdiv;
    apply Rmult_lt_compat_l; try exact Ht;
    apply Rinv_lt_contravar; nra.
Qed.

Lemma asymmetry_factor_slows_one_side_witness :
  0 < 0.2 /\ 0 < 0.3 /\ 0 < 2 /\ 0 < 1
  /\ [Fin (- 1); Fin 1] !! 0%nat = Some (Fin (- 1))
  /\ [Fin (- 1); Fin 1] !! 1%nat = Some (Fin 1)
  /\ exists before after : R,
       asymmetric_transit [Fin (- 1); Fin 1] 0.2 0.3 2 !! 0%nat
       = Some (Fin before)
       /\ asymmetric_transit [Fin (- 1); Fin 1] 0.2 0.3 2 !! 1%nat
          = Some (Fin after)
       /\ after <= before.
Proof.
  assert (Hd : 0 < 0.2) by lra.
  assert (Hs : 0 < 0.3) by lra.
  assert (Ha : 0 < 2) by lra.
  assert (Ht : 0 < 1) by lra.
  assert (Hi : [Fin (- 1); Fin 1] !! 0%nat = Some (Fin (- 1)))
    by reflexivity.
  assert (Hj : [Fin (- 1); Fin 1] !! 1%nat = Some (Fin 1)) by reflexivity.
  split; [exact Hd|]. split; [exact Hs|]. split; [exact Ha|].
  split; [exact Ht|]. split; [exact Hi|]. split; [exact Hj|].
  destruct (asymmetry_factor_slows_one_side _ 0.2 0.3 2 0%nat 1%nat 1
              Hd Hs Ha Ht Hi Hj) as (b & a & H1 & H2 & Hgt & _).
  exists b, a. split; [exact H1|]. split; [exact H2|]. apply Hgt. lra.
Defined.



(** ** The ring modulation *)

Lemma ring_term_centre (ring_amp ring_freq : R) :
  ring_term ring_amp ring_freq 0 = 0.
Proof. unfold ring_term. rewrite Rmult_0_r, sin_0. ring. Qed.

(** X7.  The rings leave the centre of the transit alone: at a sample
    [t = 0] the modulation is 0, and [ringed_transit] holds [1 - depth], for
    sigma > 0 and asymmetry_factor > 0 whose product is at least the
    smallest positive double, and every ring_amp and ring_freq. *)
Theorem ringed_flux_at_centre
    (tm : ndarray) (depth sigma asymmetry_factor ring_amp ring_freq : R)
    (i : nat) :
  0 < sigma -> 0 < asymmetry_factor ->
  float_min <= sigma * asymmetry_factor ->
  tm !! i = Some (Fin 0) ->
  ring_mod ring_amp ring_freq (Fin 0) = Fin 0
  /\ ringed_transit tm depth sigma asymmetry_factor ring_amp ring_freq !! i
     = Some (Fin (1 - depth)).
Proof.
  intros Hs Ha _ Hi.
  split.
  - rewrite ring_mod_fin, ring_term_centre. reflexivity.
  - rewrite (lookup_ringed tm _ _ _ _ _ i (Fin 0) Hi).
    unfold ringed_point.
    rewrite asymmetric_point_fin by assumption.
    rewrite ring_mod_fin, ring_term_centre, gauss_dip_centre.
    cbn [fadd]. do 2 f_equal. lra.
Qed.

Lemma ringed_flux_at_centre_witness :
  0 < 0.3 /\ 0 < 0.4 /\ float_min <= 0.3 * 0.4
  /\ [Fin 0] !! 0%nat = Some (Fin 0)
  /\ ringed_transit [Fin 0] 0.2 0.3 0.4 0.03 20 !! 0%nat
     = Some (Fin (1 - 0.2)).
Proof.
  assert (Hs : 0 < 0.3) by lra.
  assert (Ha : 0 < 0.4) by lra.
  assert (Hw : float_min <= 0.3 * 0.4)
    by (pose proof float_min_le_sixteenth; lra).
  assert (Hi : [Fin 0] !! 0%nat = Some (Fin 0)) by reflexivity.
  split; [exact Hs|]. split; [exact Ha|]. split; [exact Hw|].
  split; [exact Hi|].
  exact (proj2 (ringed_flux_at_centre _ 0.2 0.3 0.4 0.03 20 0%nat
                  Hs Ha Hw Hi)).
Defined.

Lemma ring_term_odd (ring_amp ring_freq t : R) :
  ring_term ring_amp ring_freq (- t) = - ring_term ring_amp ring_freq t.
Proof.
  unfold ring_term.
  replace (ring_freq * - t) with (- (ring_freq * t)) by ring.
  rewrite sin_neg, Rabs_Ropp. ring.
Qed.

(** X8.  The ring modulation is odd: at the negation of a sample it is the
    negation of its value at the sample, for every float (at an infinite or
    undefined sample it is NaN on both sides). *)
Theorem ring_mod_odd (ring_amp ring_freq : R) (t : float64) :
  ring_mod ring_amp ring_freq (fneg t) = fneg (ring_mod ring_amp ring_freq t).
Proof.
  destruct t as [a| | |].
  - cbn [fneg]. rewrite !ring_mod_fin, ring_term_odd. reflexivity.
  - unfold ring_mod. cbn [fneg fabs fmul].
    destruct (sign_of ring_freq); reflexivity.
  - unfold ring_mod. cbn [fneg fabs fmul].
    destruct (sign_of ring_freq); reflexivity.
  - reflexivity.
Qed.

Lemma ring_term_bound (ring_amp ring_freq t : R) :
  Rabs (ring_term ring_amp ring_freq t) <= Rabs ring_amp.
Proof.
  unfold ring_term. rewrite !Rabs_mult.
  assert (Hsin : Rabs (sin (ring_freq * t)) <= 1).
  { apply Rabs_le. pose proof (SIN_bound (ring_freq * t)). lra. }
  assert (Hexp : Rabs (exp (- Rabs t / 0.3)) <= 1).
  { rewrite Rabs_pos_eq by (left; apply exp_pos).
    apply exp_le_1. pose proof (Rabs_pos t). lra. }
  pose proof (Rabs_pos ring_amp) as H1.
  pose proof (Rabs_pos (sin (ring_freq * t))) as H2.
  pose proof (Rabs_pos (exp (- Rabs t / 0.3))) as H3.
  generalize dependent (Rabs (exp (- Rabs t / 0.3))).
  generalize dependent (Rabs (sin (ring_freq * t))).
  generalize dependent (Rabs ring_amp).
  intros a Ha s Hs1 Hs2 e He1 He2.
  assert (0 <= s * e <= 1) by nra. nra.
Qed.

Lemma ringed_point_range
    (depth sigma asymmetry_factor ring_amp ring_freq t : R) :
  0 < depth -> 0 < sigma -> 0 < asymmetry_factor ->
  exists r : R,
    ringed_point depth sigma asymmetry_factor ring_amp ring_freq (Fin t)
    = Fin r
    /\ 1 - depth - Rabs ring_amp <= r < 1 + Rabs ring_amp.
Proof.
  intros Hd Hs Ha. unfold ringed_point.
  rewrite asymmetric_point_fin by assumption. rewrite ring_mod_fin.
  eexists; split; [reflexivity|].
  pose proof (gauss_dip_range depth
                (width_at sigma asymmetry_factor t) t Hd) as Hg.
  pose proof (ring_term_bound ring_amp ring_freq t) as Hr.
  pose proof (Rle_abs (ring_term ring_amp ring_freq t)) as Hup.
  pose proof (Rle_abs (- ring_term ring_amp ring_freq t)) as Hdown.
  rewrite Rabs_Ropp in Hdown. lra.
Qed.


(** ** The curves and the axes *)

(** X10.  Nothing the script plots is clipped by [ax.set_ylim(0.75, 1.05)]:
    every value of [flux_3] and of [flux_20] is a finite number strictly
    between the two limits. *)
Theorem curves_within_ylim :
  Forall (fun y => exists r : R, y = Fin r /\ ylim_low < r < ylim_high) flux_3
  /\ Forall (fun y => exists r : R, y = Fin r /\ ylim_low < r < ylim_high)
            flux_20.
Proof.
  unfold flux_3, flux_20, ylim_low, ylim_high. split.
  - rewrite symmetric_transit_fmap. apply Forall_fmap.
    eapply Forall_impl; [apply time_all_finite|].
    intros x [t ->]. cbn [compose].
    rewrite ingress_flux_fin by lra.
    eexists; split; [reflexivity|].
    assert (Hd : 0 < 0.03) by lra.
    pose proof (gauss_dip_range 0.03 0.1 t Hd) as Hg.
    unfold gauss_dip in Hg. lra.
  - rewrite ringed_transit_fmap. apply Forall_fmap.
    eapply Forall_impl; [apply time_all_finite|].
    intros x [t ->]. cbn [compose].
    assert (Hd : 0 < 0.20) by lra.
    assert (Hs : 0 < 0.3) by lra.
    assert (Ha : 0 < 0.4) by lra.
    destruct (ringed_point_range 0.20 0.3 0.4 0.03 20 t Hd Hs Ha)
      as (r & Hr & Hlo & Hhi).
    exists r. split; [exact Hr|].
    rewrite (Rabs_pos_eq 0.03) in Hlo, Hhi by lra. lra.
Qed.

(** * The animation *)

Section Animation.

Lemma flux_3_length : length flux_3 = 400%nat.
Proof. unfold flux_3. rewrite symmetric_transit_length. apply time_length. Qed.

Lemma flux_20_length : length flux_20 = 400%nat.
Proof. unfold flux_20. rewrite ringed_transit_length. apply time_length. Qed.

Lemma frames_spec (frame : nat) : frame ∈ frames <-> (frame < 400)%nat.
Proof. unfold frames. rewrite time_length, elem_of_seq. lia. Qed.

(** X11.  [update] never hands an artist coordinate arrays of different
    lengths: for every frame number, the x and the y data of both lines have
    [min(frame, 400)] elements, whatever the artists held before. *)
Theorem update_data_aligned (frame : nat) (st : artists) :
  length (xdata (line1 (update frame st))) = Nat.min frame 400
  /\ length (ydata (line1 (update frame st))) = Nat.min frame 400
  /\ length (xdata (line2 (update frame st))) = Nat.min frame 400
  /\ length (ydata (line2 (update frame st))) = Nat.min frame 400.
Proof.
  unfold update, set_data, slice_to. cbn [line1 line2 xdata ydata].
  rewrite !length_take, time_length, flux_3_length, flux_20_length.
  repeat split; reflexivity.
Qed.

(** X12.  The animation reveals the curves one sample per frame: frame 0
    shows what [init] shows, two empty lines, and for every frame of the
    animation the next frame number shows the same data with the sample of
    index [frame] appended to each of the four arrays. *)
Theorem update_reveals_one_sample (frame : nat) (st : artists) :
  frame ∈ frames ->
  update 0 st = init st
  /\ exists t y3 y20 : float64,
       time !! frame = Some t
       /\ flux_3 !! frame = Some y3
       /\ flux_20 !! frame = Some y20
       /\ update (S frame) st
          = Artists
              (Line (xdata (line1 (update frame st)) ++ [t])
                    (ydata (line1 (update frame st)) ++ [y3]))
              (Line (xdata (line2 (update frame st)) ++ [t])
                    (ydata (line2 (update frame st)) ++ [y20])).
Proof.
  intros Hf. apply frames_spec in Hf.
  split; [reflexivity|].
  destruct (lookup_lt_is_Some_2 time frame) as [t Ht];
    [rewrite time_length; exact Hf|].
  destruct (lookup_lt_is_Some_2 flux_3 frame) as [y3 H3];
    [rewrite flux_3_length; exact Hf|].
  destruct (lookup_lt_is_Some_2 flux_20 frame) as [y20 H20];
    [rewrite flux_20_length; exact Hf|].
  exists t, y3, y20.
  split; [exact Ht|]. split; [exact H3|]. split; [exact H20|].
  unfold update, set_data, slice_to. cbn [line1 line2 xdata ydata].
  rewrite (take_S_r time frame t Ht), (take_S_r flux_3 frame y3 H3),
    (take_S_r flux_20 frame y20 H20).
  reflexivity.
Qed.

Lemma update_reveals_one_sample_witness :
  (0%nat ∈ frames)
  /\ exists t y3 y20 : float64,
       time !! 0%nat = Some t
       /\ flux_3 !! 0%nat = Some y3
       /\ flux_20 !! 0%nat = Some y20
       /\ update 1 (Artists (Line [] []) (Line [] []))
          = Artists (Line ([] ++ [t]) ([] ++ [y3]))
                    (Line ([] ++ [t]) ([] ++ [y20])).
Proof.
  assert (Hf : 0%nat ∈ frames) by (apply frames_spec; lia).
  split; [exact Hf|].
  exact (proj2 (update_reveals_one_sample 0%nat
                  (Artists (Line [] []) (Line [] [])) Hf)).
Defined.

Lemma time_before_last (i : nat) :
  (i < 399)%nat -> - 1.5 + INR i * (3 / 399) < 1.5.
Proof.
  intros Hi.
  assert (Hle : INR i <= 398).
  { replace 398 with (INR 398) by (rewrite INR_IZR_INZ; reflexivity).
    apply le_INR. lia. }
  lra.
Qed.

(** X13.  The animation never shows a complete curve: with
    [frames=len(time)] the frame numbers stop at 399 and [update] slices
    [[:frame]], so every frame holds fewer than 400 points and the last
    sample of the grid, [t = 1.5] at index 399, is in no frame. *)
Theorem last_sample_never_drawn (frame : nat) (st : artists) :
  frame ∈ frames ->
  time !! 399%nat = Some (Fin 1.5)
  /\ (length (xdata (line1 (update frame st))) < 400)%nat
  /\ (length (xdata (line2 (update frame st))) < 400)%nat
  /\ (Fin 1.5 ∉ xdata (line1 (update frame st)))
  /\ (Fin 1.5 ∉ xdata (line2 (update frame st))).
Proof.
  intros Hf. apply frames_spec in Hf.
  assert (Hlast : time !! 399%nat = Some (Fin 1.5)).
  { rewrite time_lookup by lia. do 2 f_equal.
    replace (INR 399) with 399 by (rewrite INR_IZR_INZ; reflexivity). lra. }
  assert (Hnot : Fin 1.5 ∉ slice_to time frame).
  { unfold slice_to. rewrite elem_of_take. intros (i & Hi & Hlt).
    apply time_lookup_inv in Hi as [_ Heq].
    injection Heq as Heq.
    pose proof (time_before_last i ltac:(lia)). lra. }
  unfold update, set_data. cbn [line1 line2 xdata ydata].
  unfold slice_to in *. rewrite length_take, time_length.
  repeat split; try assumption; lia.
Qed.

Lemma last_sample_never_drawn_witness :
  (399%nat ∈ frames)
  /\ (Fin 1.5
      ∉ xdata (line1 (update 399 (Artists (Line [] []) (Line [] []))))).
Proof.
  assert (Hf : 399%nat ∈ frames) by (apply frames_spec; lia).
  split; [exact Hf|].
  exact (proj1 (proj2 (proj2 (proj2
           (last_sample_never_drawn 399%nat
              (Artists (Line [] []) (Line [] [])) Hf))))).
Defined.

End Animation.

(** * Where rounding shows *)

Section Rounding.

#[local] Set Warnings "-inexact-float".

(** C6, as stated, fails: sigma = asymmetry_factor = 1e-200 are both
    positive, yet their product underflows to 0.0, the zero sample is
    divided by zero, and [asymmetric_transit] holds NaN there, not
    [1 - depth]. *)
Lemma tiny_width_is_nan_at_centre :
  (0 <? 1e-200)%float = true
  /\ (1e-200 * 1e-200)%float = 0%float
  /\ (0 / (1e-200 * 1e-200))%float = nan
  /\ forall m : libm,
       asymmetric_transit64 m [0%float] 0.03 1e-200 1e-200 = [nan].
Proof.
  split; [vm_compute; reflexivity|].
  split; [vm_compute; reflexivity|].
  split; [vm_compute; reflexivity|].
  intros m. vm_compute. reflexivity.
Qed.

(** C7, as stated, fails: the 400-point grid does not pair each point with
    its negation.  The sample of index 398 is not the negation of the sample
    of index 1: they differ in the last bit. *)
Lemma grid_not_mirrored :
  time64 !! 1%nat = Some (-0x1.7e133f84cfe13p+0)%float
  /\ time64 !! 398%nat = Some 0x1.7e133f84cfe12p+0%float
  /\ (0x1.7e133f84cfe12p+0 =? - (-0x1.7e133f84cfe13p+0))%float = false.
Proof.
  split; [vm_compute; reflexivity|].
  split; vm_compute; reflexivity.
Qed.

(** C8, as stated, fails: the samples of index 398 and 1 of the grid have
    [|t398| < |t1|], but [-abs(t) / 0.3] is the same double for both, so the
    envelope is the same at both, whatever [np.exp] returns there and
    whatever ring_amp is: it is not strictly smaller at the farther one. *)
Lemma envelope_ties_on_grid :
  time64 !! 398%nat = Some 0x1.7e133f84cfe12p+0%float
  /\ time64 !! 1%nat = Some (-0x1.7e133f84cfe13p+0)%float
  /\ (abs 0x1.7e133f84cfe12p+0 <? abs (-0x1.7e133f84cfe13p+0))%float = true
  /\ (- abs (-0x1.7e133f84cfe13p+0) / 0.3)%float
     = (- abs 0x1.7e133f84cfe12p+0 / 0.3)%float
  /\ forall (m : libm) (ring_amp : float),
       ring_envelope64 m ring_amp (-0x1.7e133f84cfe13p+0)%float
       = ring_envelope64 m ring_amp 0x1.7e133f84cfe12p+0%float.
Proof.
  split; [vm_compute; reflexivity|].
  split; [vm_compute; reflexivity|].
  split; [vm_compute; reflexivity|].
  split; [vm_compute; reflexivity|].
  intros m ring_amp. unfold ring_envelope64, ring_damping64.
  do 2 f_equal.
Qed.

(** C10, as stated, fails: depth = 0.03 lies in (0, 1) and sigma = 1e-200
    is positive, yet the flux of [symmetric_transit] at the first sample of
    the grid is exactly 1.0: the square of [-1.5 / 1e-200] overflows to
    [+inf], [np.exp(-inf)] is 0, and [1.0 - 0.03 * 0.0] is 1.0. *)
Lemma flux_reaches_baseline :
  (0 <? 0.03)%float = true
  /\ (0.03 <? 1)%float = true
  /\ (0 <? 1e-200)%float = true
  /\ time64 !! 0%nat = Some (-1.5)%float
  /\ square (-1.5 / 1e-200)%float = infinity
  /\ forall m : libm,
       symmetric_transit64 m time64 0.03 1e-200 !! 0%nat = Some 1%float.
Proof.
  split; [vm_compute; reflexivity|].
  split; [vm_compute; reflexivity|].
  split; [vm_compute; reflexivity|].
  split; [vm_compute; reflexivity|].
  split; [vm_compute; reflexivity|].
  intros m. vm_compute. reflexivity.
Qed.

End Rounding.
